(** * Verification of the phecs entity-component store (src/phecs/phecs.py)

    Shallow embedding of [Entity], [InternalEntity] and [World].  Python
    dicts are insertion-ordered association lists ([PyDict]); component
    types are tags ([Ty]); a component value carries its runtime type;
    generators are modelled by the list of values they yield followed by
    the exception they raise, if any ([Gen]). *)

From Stdlib Require Import List ZArith Bool Arith Lia.
Import ListNotations.

(** ** Python dicts: insertion-ordered, keys compared with [eqb]. *)
Module PyDict.
Section Dict.
Context {K V : Type} (eqb : K -> K -> bool).

Definition dict := list (K * V).

(** [k in d] *)
Definition contains (k : K) (d : dict) : bool :=
  existsb (fun kv => eqb k (fst kv)) d.

(** [d.get(k)] *)
Fixpoint lookup (k : K) (d : dict) : option V :=
  match d with
  | [] => None
  | (k', v) :: d' => if eqb k k' then Some v else lookup k d'
  end.

(** [d[k] = v]: an existing key keeps its key object and its position,
    a new key is appended. *)
Fixpoint setitem (k : K) (v : V) (d : dict) : dict :=
  match d with
  | [] => [(k, v)]
  | (k', v') :: d' => if eqb k k' then (k', v) :: d' else (k', v') :: setitem k v d'
  end.

(** In-place mutation of the value stored under [k] (a dict holds the
    object, mutating it leaves the dict's order unchanged). *)
Fixpoint modify (k : K) (f : V -> V) (d : dict) : dict :=
  match d with
  | [] => []
  | (k', v') :: d' => if eqb k k' then (k', f v') :: d' else (k', v') :: modify k f d'
  end.

(** [del d[k]] (keys of a dict are unique, so this drops the one entry) *)
Definition delitem (k : K) (d : dict) : dict :=
  filter (fun kv => negb (eqb k (fst kv))) d.

(** [d.values()] *)
Definition values (d : dict) : list V := map snd d.
End Dict.
End PyDict.

Arguments PyDict.dict : clear implicits.

(** ** Exceptions, results and generators *)
Inductive PyExn := KeyError.

Inductive Result (A : Type) := Ok (a : A) | Raise (e : PyExn).
Arguments Ok {A} a.
Arguments Raise {A} e.

(** A finite generator run to exhaustion: what it yields, then the
    exception it raises (if any). *)
Definition Gen (Y : Type) := (list Y * option PyExn)%type.

(** [yield from []] *)
Definition yield_from_nil {Y} : Gen Y := ([], None).
Definition gyield {Y} (y : Y) : Gen Y := ([y], None).
Definition graise {Y} (e : PyExn) : Gen Y := ([], Some e).

(** Sequencing of generator statements: an exception stops the rest. *)
Definition gseq {Y} (g1 : Gen Y) (k : unit -> Gen Y) : Gen Y :=
  match g1 with
  | (ys, Some e) => (ys, Some e)
  | (ys, None) => let '(zs, r) := k tt in (ys ++ zs, r)
  end.

Notation "g1 ;; g2" := (gseq g1 (fun _ => g2)) (at level 61, right associativity).

(** ** Data model *)

(** Component types ([type(component)]) as tags. *)
Definition Ty := nat.

(** A component value and its runtime type. *)
Record Component := mkComponent { ctype : Ty; cpayload : nat }.

Definition type_of (c : Component) : Ty := ctype c.

Inductive Error := NoSuchEntity | NoSuchComponent.

(** [class Entity]: wraps an integer id; hash and equality use the id. *)
Record Entity := mkEntity { entity_id : Z }.

Definition entity_eqb (a b : Entity) : bool := Z.eqb (entity_id a) (entity_id b).

(** Right-hand operand of [Entity.__eq__]: an int or another Entity. *)
Inductive EqOperand := OInt (n : Z) | OEntity (e : Entity).

(** [Entity.__eq__] *)
Definition Entity_eq (self : Entity) (other_entity : EqOperand) : bool :=
  match other_entity with
  | OInt n => Z.eqb (entity_id self) n
  | OEntity o => Z.eqb (entity_id self) (entity_id o)
  end.

Definition CompMap := PyDict.dict Ty Component.

(** [class InternalEntity] *)
Record InternalEntity := mkInternalEntity {
  ie_entity : Entity;
  ie_components : CompMap
}.

(** [class World] *)
Record World := mkWorld {
  next_entity_id : Z;
  entities : PyDict.dict Entity InternalEntity
}.

(** [World()] *)
Definition new_world : World := mkWorld 0 [].

(** [c in internal_entity.components] *)
Definition has_type (t : Ty) (m : CompMap) : bool := PyDict.contains Nat.eqb t m.

(** [for component in components: m[type(component)] = component] *)
Definition add_components (m : CompMap) (cs : list Component) : CompMap :=
  fold_left (fun m c => PyDict.setitem Nat.eqb (type_of c) c m) cs m.

(** [entity in self.entities] *)
Definition contains (w : World) (e : Entity) : bool :=
  PyDict.contains entity_eqb e (entities w).

(** [self.entities[entity]] *)
Definition getitem_entity (w : World) (e : Entity) : Result InternalEntity :=
  match PyDict.lookup entity_eqb e (entities w) with
  | Some ie => Ok ie
  | None => Raise KeyError
  end.

(** [internal_entity.components[c] for c in component_types] *)
Fixpoint getitems (ts : list Ty) (m : CompMap) : Result (list Component) :=
  match ts with
  | [] => Ok []
  | t :: ts' =>
      match PyDict.lookup Nat.eqb t m with
      | None => Raise KeyError
      | Some c => match getitems ts' m with
                  | Ok cs => Ok (c :: cs)
                  | Raise e => Raise e
                  end
      end
  end.

(** A [has] / [without] argument: [None], a single type, or a list/tuple
    of types. *)
Inductive Filter := FNone | FOne (t : Ty) | FMany (ts : list Ty).

(** ** Lifecycle operations *)

(** [World.spawn] *)
Definition spawn (w : World) (components : list Component) : World * Entity :=
  let entity := mkEntity (next_entity_id w) in
  let internal_entity := mkInternalEntity entity (add_components [] components) in
  (mkWorld (next_entity_id w + 1)
           (PyDict.setitem entity_eqb entity internal_entity (entities w)),
   entity).

(** [World.spawn_at] *)
Definition spawn_at (w : World) (entity : Entity) (components : list Component) : World :=
  let internal_entity := mkInternalEntity entity (add_components [] components) in
  mkWorld (next_entity_id w)
          (PyDict.setitem entity_eqb entity internal_entity (entities w)).

(** [World.despawn] *)
Definition despawn (w : World) (entity : Entity) : World * option Error :=
  if contains w entity
  then (mkWorld (next_entity_id w) (PyDict.delitem entity_eqb entity (entities w)), None)
  else (w, Some NoSuchEntity).

(** [World.clear] *)
Definition clear (w : World) : World := mkWorld (next_entity_id w) [].

(** ** Queries *)

(** The normalisation at the top of [World.find]: a list or tuple is kept,
    a single type [t] becomes [[t]], [None] stays [None]. *)
Definition normalize (f : Filter) : option (list Ty) :=
  match f with
  | FNone => None
  | FOne t => Some [t]
  | FMany ts => Some ts
  end.

(** Truthiness of the normalised filter ([None] and [[]] are falsy). *)
Definition truthy (o : option (list Ty)) : bool :=
  match o with
  | None | Some [] => false
  | Some (_ :: _) => true
  end.

Definition filter_list (o : option (list Ty)) : list Ty :=
  match o with None => [] | Some ts => ts end.

(** The loop body of [World.find] over [self.entities.values()]. *)
Fixpoint find_loop (component_types : list Ty) (has without : option (list Ty))
    (ies : list InternalEntity) : Gen (Entity * list Component) :=
  match ies with
  | [] => yield_from_nil
  | internal_entity :: rest =>
      let m := ie_components internal_entity in
      if truthy has && existsb (fun c => negb (has_type c m)) (filter_list has)
      then find_loop component_types has without rest
      else if truthy without && existsb (fun c => has_type c m) (filter_list without)
      then find_loop component_types has without rest
      else if forallb (fun c => has_type c m) component_types
      then (match getitems component_types m with
            | Ok cs => gyield (ie_entity internal_entity, cs)
            | Raise e => graise e
            end) ;; find_loop component_types has without rest
      else find_loop component_types has without rest
  end.

(** [World.find] *)
Definition find (w : World) (component_types : list Ty) (has without : Filter)
    : Gen (Entity * list Component) :=
  find_loop component_types (normalize has) (normalize without)
            (PyDict.values (entities w)) ;; yield_from_nil.

(** Python truthiness of a [has]/[without] argument as passed (a type
    object is truthy). *)
Definition arg_truthy (f : Filter) : bool :=
  match f with
  | FNone | FMany [] => false
  | FOne _ | FMany (_ :: _) => true
  end.

(** [World.find_on], statement by statement.  Every early exit of the
    source is the statement [yield from []], which yields nothing and
    does not leave the generator. *)
Definition find_on (w : World) (entity : Entity) (component_types : list Ty)
    (has without : Filter) : Gen (Entity * list Component) :=
  (if negb (contains w entity) then yield_from_nil else yield_from_nil) ;;
  match getitem_entity w entity with
  | Raise e => graise e
  | Ok internal_entity =>
      let m := ie_components internal_entity in
      (if arg_truthy has then
         match has with
         | FMany ts => if existsb (fun c => negb (has_type c m)) ts
                       then yield_from_nil else yield_from_nil
         | FOne t => if negb (has_type t m) then yield_from_nil else yield_from_nil
         | FNone => yield_from_nil
         end
       else yield_from_nil) ;;
      (if arg_truthy without then
         match without with
         | FMany ts => if existsb (fun c => has_type c m) ts
                       then yield_from_nil else yield_from_nil
         | FOne t => if has_type t m then yield_from_nil else yield_from_nil
         | FNone => yield_from_nil
         end
       else yield_from_nil) ;;
      (if forallb (fun c => has_type c m) component_types
       then match getitems component_types m with
            | Ok cs => gyield (ie_entity internal_entity, cs)
            | Raise e => graise e
            end
       else yield_from_nil) ;;
      yield_from_nil
  end.

(** [World.get] *)
Definition get (w : World) (entity : Entity) (component_type : Ty) : option Component :=
  if contains w entity then
    match PyDict.lookup entity_eqb entity (entities w) with
    | Some ie => if has_type component_type (ie_components ie)
                 then PyDict.lookup Nat.eqb component_type (ie_components ie)
                 else None
    | None => None
    end
  else None.

(** [World.satisfies] *)
Definition satisfies (w : World) (entity : Entity) (has without : Filter) : bool :=
  if negb (contains w entity) then false else
  match PyDict.lookup entity_eqb entity (entities w) with
  | None => false
  | Some internal_entity =>
      let m := ie_components internal_entity in
      if (if arg_truthy has then
            match has with
            | FMany ts => existsb (fun c => negb (has_type c m)) ts
            | FOne t => negb (has_type t m)
            | FNone => false
            end
          else false) then false
      else if (if arg_truthy without then
                 match without with
                 | FMany ts => existsb (fun c => has_type c m) ts
                 | FOne t => has_type t m
                 | FNone => false
                 end
               else false) then false
      else true
  end.

(** [World.is_empty] *)
Definition is_empty (w : World) (entity : Entity) : bool :=
  contains w entity &&
  match PyDict.lookup entity_eqb entity (entities w) with
  | Some ie => match ie_components ie with [] => true | _ => false end
  | None => false
  end.

(** ** Component mutation *)

(** [World.insert]: the components are written into the stored
    [InternalEntity] object in place. *)
Definition insert (w : World) (entity : Entity) (components : list Component)
    : World * option Error :=
  if contains w entity
  then (mkWorld (next_entity_id w)
          (PyDict.modify entity_eqb entity
             (fun ie => mkInternalEntity (ie_entity ie)
                          (add_components (ie_components ie) components))
             (entities w)), None)
  else (w, Some NoSuchEntity).

(** [for component_type in component_types:
       if component_type in m: del m[component_type]] *)
Definition remove_types (m : CompMap) (component_types : list Ty) : CompMap :=
  fold_left (fun m t => if has_type t m then PyDict.delitem Nat.eqb t m else m)
            component_types m.

(** [World.remove] *)
Definition remove (w : World) (entity : Entity) (component_types : list Ty) : World :=
  if contains w entity
  then mkWorld (next_entity_id w)
         (PyDict.modify entity_eqb entity
            (fun ie => mkInternalEntity (ie_entity ie)
                         (remove_types (ie_components ie) component_types))
            (entities w))
  else w.

(** [World.take] *)
Definition take (w : World) (entity : Entity) : World * list Component :=
  if contains w entity then
    match getitem_entity w entity with
    | Ok internal_entity =>
        let components := PyDict.values (ie_components internal_entity) in
        (fst (despawn w entity), components)
    | Raise _ => (w, [])   (* unreachable: [entity in self.entities] *)
    end
  else (w, []).

(** ** Enumeration *)

(** [World.iter] *)
Definition iter (w : World) : list Entity :=
  map (fun kv => ie_entity (snd kv)) (entities w).

(** [World.iter_every] *)
Definition iter_every (w : World) : list (Entity * list Component) :=
  map (fun kv => (fst kv, PyDict.values (ie_components (snd kv)))) (entities w).

(** ** Sequences of public mutating operations *)
Inductive Op :=
| OpSpawn (cs : list Component)
| OpSpawnAt (e : Entity) (cs : list Component)
| OpDespawn (e : Entity)
| OpClear
| OpInsert (e : Entity) (cs : list Component)
| OpRemove (e : Entity) (ts : list Ty)
| OpTake (e : Entity).

(** One operation; returns the new world and the entity [spawn] returned,
    if the operation is a spawn. *)
Definition step (w : World) (op : Op) : World * option Entity :=
  match op with
  | OpSpawn cs => let '(w', e) := spawn w cs in (w', Some e)
  | OpSpawnAt e cs => (spawn_at w e cs, None)
  | OpDespawn e => (fst (despawn w e), None)
  | OpClear => (clear w, None)
  | OpInsert e cs => (fst (insert w e cs), None)
  | OpRemove e ts => (remove w e ts, None)
  | OpTake e => (fst (take w e), None)
  end.

(** Runs the operations, collecting the entities returned by [spawn]. *)
Fixpoint run (w : World) (ops : list Op) : World * list Entity :=
  match ops with
  | [] => (w, [])
  | op :: ops' =>
      let '(w1, r) := step w op in
      let '(w2, es) := run w1 ops' in
      (w2, match r with Some e => e :: es | None => es end)
  end.

(** ** The matching rule of the spec (section 4.4), for comparison *)

(** H and W normalised from a single type or a sequence to the list of
    types; an absent filter is empty. *)
Definition spec_filter_types (f : Filter) : list Ty :=
  match f with FNone => [] | FOne t => [t] | FMany ts => ts end.

Definition spec_matches (R : list Ty) (H W : Filter) (m : CompMap) : bool :=
  forallb (fun t => has_type t m) R &&
  forallb (fun t => has_type t m) (spec_filter_types H) &&
  forallb (fun t => negb (has_type t m)) (spec_filter_types W).

(** [satisfies] as the spec states it: the entity is registered, every
    type of H is present and no type of W is. *)
Definition spec_satisfies (w : World) (e : Entity) (H W : Filter) : bool :=
  match PyDict.lookup entity_eqb e (entities w) with
  | None => false
  | Some ie =>
      forallb (fun t => has_type t (ie_components ie)) (spec_filter_types H) &&
      forallb (fun t => negb (has_type t (ie_components ie))) (spec_filter_types W)
  end.

(** Each stored [InternalEntity] carries the key it is registered under. *)
Definition keys_match (w : World) : Prop :=
  Forall (fun kv => ie_entity (snd kv) = fst kv) (entities w).

(** The relation between a matching [InternalEntity] and the tuple
    [find] yields for it. *)
Definition row_of (R : list Ty) (ie : InternalEntity) (y : Entity * list Component) : Prop :=
  fst y = ie_entity ie /\
  Forall2 (fun t c => PyDict.lookup Nat.eqb t (ie_components ie) = Some c) R (snd y).

(** No key of the entity mapping is stored twice. *)
Definition keys_unique (w : World) : Prop := NoDup (map fst (entities w)).

(** The last component of type [t] among [cs], if any. *)
Definition last_of_type (t : Ty) (cs : list Component) : option Component :=
  fold_left (fun acc c => if Nat.eqb (type_of c) t then Some c else acc) cs None.

(** Sample components: Position, Velocity and IsDead of the spec. *)
Definition Position : Ty := 0.
Definition Velocity : Ty := 1.
Definition IsDead : Ty := 2.
Definition pos (n : nat) := mkComponent Position n.
Definition vel (n : nat) := mkComponent Velocity n.
Definition dead := mkComponent IsDead 0.

Definition abc_world : World :=
  fst (run new_world [OpSpawn [pos 1; vel 1]; OpSpawn [pos 2]; OpSpawn [pos 3; dead]]).

Example find_has_velocity :
  find abc_world [Position] (FOne Velocity) FNone = ([(mkEntity 0, [pos 1])], None).
Proof. reflexivity. Qed.

Example find_without_dead :
  find abc_world [Position] FNone (FOne IsDead)
  = ([(mkEntity 0, [pos 1]); (mkEntity 1, [pos 2])], None).
Proof. reflexivity. Qed.

Example find_both :
  find abc_world [Position] (FOne Velocity) (FOne IsDead) = ([(mkEntity 0, [pos 1])], None).
Proof. reflexivity. Qed.

Example find_on_filter_ignored :
  find_on abc_world (mkEntity 1) [Position] (FOne Velocity) FNone
  = ([(mkEntity 1, [pos 2])], None).
Proof. reflexivity. Qed.

Example find_on_unregistered :
  find_on abc_world (mkEntity 7) [] FNone FNone = ([], Some KeyError).
Proof. reflexivity. Qed.

(** ** Lemmas on dicts *)
Module PyDictFacts.
Section Facts.
Context {K V : Type} (eqb : K -> K -> bool).
Hypothesis eqb_spec : forall a b, eqb a b = true <-> a = b.

Lemma eqb_refl_k k : eqb k k = true.
Proof. apply eqb_spec; reflexivity. Qed.

Lemma contains_lookup k (d : PyDict.dict K V) :
  PyDict.contains eqb k d = match PyDict.lookup eqb k d with Some _ => true | None => false end.
Proof.
  induction d as [|[k' v'] d IH]; simpl; [reflexivity|].
  destruct (eqb k k'); simpl; auto.
Qed.

Lemma lookup_setitem k k' v (d : PyDict.dict K V) :
  PyDict.lookup eqb k (PyDict.setitem eqb k' v d)
  = if eqb k k' then Some v else PyDict.lookup eqb k d.
Proof.
  induction d as [|[k0 v0] d IH]; simpl.
  - destruct (eqb k k'); reflexivity.
  - destruct (eqb k' k0) eqn:E1.
    + apply eqb_spec in E1; subst k0. simpl. destruct (eqb k k'); reflexivity.
    + simpl. destruct (eqb k k0) eqn:E2.
      * apply eqb_spec in E2; subst k0.
        destruct (eqb k k') eqn:E3; [|reflexivity].
        apply eqb_spec in E3; subst k'. rewrite eqb_refl_k in E1; discriminate.
      * exact IH.
Qed.

Lemma lookup_modify k k' f (d : PyDict.dict K V) :
  PyDict.lookup eqb k (PyDict.modify eqb k' f d)
  = if eqb k k' then option_map f (PyDict.lookup eqb k d) else PyDict.lookup eqb k d.
Proof.
  induction d as [|[k0 v0] d IH]; simpl.
  - destruct (eqb k k'); reflexivity.
  - destruct (eqb k' k0) eqn:E1.
    + apply eqb_spec in E1; subst k0. simpl. destruct (eqb k k'); reflexivity.
    + simpl. destruct (eqb k k0) eqn:E2.
      * apply eqb_spec in E2; subst k0.
        destruct (eqb k k') eqn:E3; [|reflexivity].
        apply eqb_spec in E3; subst k'. rewrite eqb_refl_k in E1; discriminate.
      * exact IH.
Qed.

Lemma contains_modify k k' f (d : PyDict.dict K V) :
  PyDict.contains eqb k (PyDict.modify eqb k' f d) = PyDict.contains eqb k d.
Proof.
  rewrite !contains_lookup, lookup_modify.
  destruct (eqb k k'); [destruct (PyDict.lookup eqb k d)|]; reflexivity.
Qed.

Lemma lookup_delitem k k' (d : PyDict.dict K V) :
  PyDict.lookup eqb k (PyDict.delitem eqb k' d)
  = if eqb k k' then None else PyDict.lookup eqb k d.
Proof.
  unfold PyDict.delitem.
  induction d as [|[k0 v0] d IH]; simpl.
  - destruct (eqb k k'); reflexivity.
  - destruct (eqb k' k0) eqn:E1; simpl.
    + apply eqb_spec in E1; subst k0. rewrite IH.
      destruct (eqb k k'); reflexivity.
    + destruct (eqb k k0) eqn:E2.
      * apply eqb_spec in E2; subst k0.
        destruct (eqb k k') eqn:E3; [|reflexivity].
        apply eqb_spec in E3; subst k'. rewrite eqb_refl_k in E1; discriminate.
      * exact IH.
Qed.

Lemma modify_ext k f g (d : PyDict.dict K V) :
  (forall v, f v = g v) -> PyDict.modify eqb k f d = PyDict.modify eqb k g d.
Proof.
  intros Hfg. induction d as [|[k0 v0] d IH]; simpl; [reflexivity|].
  destruct (eqb k k0); [rewrite Hfg|rewrite IH]; reflexivity.
Qed.

Lemma modify_modify k f g (d : PyDict.dict K V) :
  PyDict.modify eqb k g (PyDict.modify eqb k f d)
  = PyDict.modify eqb k (fun v => g (f v)) d.
Proof.
  induction d as [|[k0 v0] d IH]; simpl; [reflexivity|].
  destruct (eqb k k0) eqn:E; simpl; rewrite E; [reflexivity|rewrite IH; reflexivity].
Qed.

Lemma lookup_In k v (d : PyDict.dict K V) :
  PyDict.lookup eqb k d = Some v -> In (k, v) d.
Proof.
  induction d as [|[k0 v0] d IH]; simpl; [discriminate|].
  destruct (eqb k k0) eqn:E; intros Hl.
  - apply eqb_spec in E; subst k0. inversion Hl; subst. left; reflexivity.
  - right; auto.
Qed.

Lemma In_contains k v (d : PyDict.dict K V) :
  In (k, v) d -> PyDict.contains eqb k d = true.
Proof.
  intros Hin. unfold PyDict.contains. apply existsb_exists.
  exists (k, v). split; [exact Hin|apply eqb_refl_k].
Qed.

(** Entries satisfying [P] stay so under [setitem], [modify] and
    [delitem] when the written values do. *)
Lemma Forall_setitem (P : K * V -> Prop) k v (d : PyDict.dict K V) :
  (forall k', eqb k k' = true -> P (k', v)) -> Forall P d ->
  Forall P (PyDict.setitem eqb k v d).
Proof.
  intros Hv Hd. induction Hd as [|[k0 v0] d Hx Hd IH]; simpl.
  - constructor; [apply Hv, eqb_refl_k|constructor].
  - destruct (eqb k k0) eqn:E; constructor; auto.
Qed.

Lemma Forall_modify (P : K * V -> Prop) k f (d : PyDict.dict K V) :
  (forall k' v, P (k', v) -> P (k', f v)) -> Forall P d ->
  Forall P (PyDict.modify eqb k f d).
Proof.
  intros Hf Hd. induction Hd as [|[k0 v0] d Hx Hd IH]; simpl; [constructor|].
  destruct (eqb k k0); constructor; auto.
Qed.

Lemma Forall_delitem (P : K * V -> Prop) k (d : PyDict.dict K V) :
  Forall P d -> Forall P (PyDict.delitem eqb k d).
Proof.
  intros Hd. unfold PyDict.delitem. apply Forall_forall.
  intros x Hx. apply filter_In in Hx. destruct Hx as [Hx _].
  eapply Forall_forall in Hd; eauto.
Qed.
End Facts.
End PyDictFacts.

Lemma entity_eqb_spec a b : entity_eqb a b = true <-> a = b.
Proof.
  destruct a as [x], b as [y]; unfold entity_eqb; simpl.
  rewrite Z.eqb_eq. split; [intros ->|intros H; inversion H]; reflexivity.
Qed.

Lemma nat_eqb_spec a b : Nat.eqb a b = true <-> a = b.
Proof. apply Nat.eqb_eq. Qed.

(** ** Lemmas on component maps and worlds *)

Ltac dict_rw :=
  rewrite ?(PyDictFacts.lookup_setitem _ entity_eqb_spec),
          ?(PyDictFacts.lookup_modify _ entity_eqb_spec),
          ?(PyDictFacts.lookup_delitem _ entity_eqb_spec),
          ?(PyDictFacts.lookup_setitem _ nat_eqb_spec),
          ?(PyDictFacts.lookup_delitem _ nat_eqb_spec).

Lemma contains_lookup_w w e :
  contains w e = match PyDict.lookup entity_eqb e (entities w) with
                 | Some _ => true | None => false end.
Proof. apply PyDictFacts.contains_lookup. Qed.

Lemma has_type_lookup t m :
  has_type t m = match PyDict.lookup Nat.eqb t m with Some _ => true | None => false end.
Proof. apply PyDictFacts.contains_lookup. Qed.

Lemma get_lookup w e t :
  get w e t = match PyDict.lookup entity_eqb e (entities w) with
              | Some ie => PyDict.lookup Nat.eqb t (ie_components ie)
              | None => None end.
Proof.
  unfold get. rewrite contains_lookup_w.
  destruct (PyDict.lookup entity_eqb e (entities w)) as [ie|]; [|reflexivity].
  rewrite has_type_lookup. destruct (PyDict.lookup Nat.eqb t (ie_components ie)); reflexivity.
Qed.

Lemma lookup_add_components t m cs :
  PyDict.lookup Nat.eqb t (add_components m cs)
  = match last_of_type t cs with Some c => Some c | None => PyDict.lookup Nat.eqb t m end.
Proof.
  induction cs as [|c cs IH] using rev_ind; [reflexivity|].
  unfold add_components, last_of_type in *. rewrite !fold_left_app. simpl.
  dict_rw. rewrite IH.
  destruct (Nat.eqb t (type_of c)) eqn:E1; destruct (Nat.eqb (type_of c) t) eqn:E2;
    try reflexivity;
    [apply Nat.eqb_eq in E1; rewrite E1, Nat.eqb_refl in E2
    |apply Nat.eqb_eq in E2; rewrite E2, Nat.eqb_refl in E1]; discriminate.
Qed.

(** Keys not removed by [remove_types]. *)
Definition kept (ts : list Ty) (kv : Ty * Component) : bool :=
  negb (existsb (Nat.eqb (fst kv)) ts).

Lemma delitem_absent t (m : CompMap) :
  has_type t m = false -> PyDict.delitem Nat.eqb t m = m.
Proof.
  unfold has_type, PyDict.contains, PyDict.delitem.
  induction m as [|[k v] m IH]; simpl; [reflexivity|].
  destruct (Nat.eqb t k); simpl; [discriminate|]. intros H; rewrite IH; auto.
Qed.

Lemma filter_and {A} (f g : A -> bool) l :
  filter g (filter f l) = filter (fun x => f x && g x) l.
Proof.
  induction l as [|x l IH]; simpl; [reflexivity|].
  destruct (f x); simpl; [destruct (g x); simpl|]; rewrite IH; reflexivity.
Qed.

Lemma filter_ext_eq {A} (f g : A -> bool) l :
  (forall x, f x = g x) -> filter f l = filter g l.
Proof.
  intros H. induction l as [|x l IH]; simpl; [reflexivity|].
  rewrite H, IH; reflexivity.
Qed.

Lemma filter_true {A} (l : list A) : filter (fun _ => true) l = l.
Proof. induction l; simpl; congruence. Qed.

Lemma remove_types_filter m ts :
  remove_types m ts = filter (kept ts) m.
Proof.
  unfold remove_types. revert m.
  induction ts as [|t ts IH]; intros m; simpl.
  - unfold kept; simpl. symmetry; apply filter_true.
  - rewrite IH. transitivity (filter (kept ts) (PyDict.delitem Nat.eqb t m)).
    { f_equal. destruct (has_type t m) eqn:E; [reflexivity|].
      symmetry; apply delitem_absent; exact E. }
    unfold PyDict.delitem. rewrite filter_and.
    apply filter_ext_eq. intros [k v]; unfold kept; simpl.
    rewrite (Nat.eqb_sym t k). destruct (Nat.eqb k t); reflexivity.
Qed.

Lemma filter_idem {A} (f : A -> bool) l : filter f (filter f l) = filter f l.
Proof.
  rewrite filter_and. apply filter_ext_eq. intros x. destruct (f x); reflexivity.
Qed.

Lemma remove_types_idem m ts :
  remove_types (remove_types m ts) ts = remove_types m ts.
Proof. rewrite !remove_types_filter. apply filter_idem. Qed.

Lemma existsb_negb_forallb {A} (p : A -> bool) l :
  existsb (fun x => negb (p x)) l = negb (forallb p l).
Proof. induction l as [|x l IH]; simpl; [reflexivity|]. rewrite IH; destruct (p x); reflexivity. Qed.

Lemma existsb_forallb_negb {A} (p : A -> bool) l :
  existsb p l = negb (forallb (fun x => negb (p x)) l).
Proof. induction l as [|x l IH]; simpl; [reflexivity|]. rewrite IH; destruct (p x); reflexivity. Qed.

(** The [has] and [without] checks of [satisfies] and [find_on]. *)
Lemma has_check_spec (H : Filter) m :
  (if arg_truthy H then
     match H with
     | FMany ts => existsb (fun c => negb (has_type c m)) ts
     | FOne t => negb (has_type t m)
     | FNone => false
     end
   else false) = negb (forallb (fun t => has_type t m) (spec_filter_types H)).
Proof.
  destruct H as [|t|[|t ts]]; simpl; try reflexivity.
  - destruct (has_type t m); reflexivity.
  - rewrite existsb_negb_forallb. destruct (has_type t m); reflexivity.
Qed.

Lemma without_check_spec (W : Filter) m :
  (if arg_truthy W then
     match W with
     | FMany ts => existsb (fun c => has_type c m) ts
     | FOne t => has_type t m
     | FNone => false
     end
   else false) = negb (forallb (fun t => negb (has_type t m)) (spec_filter_types W)).
Proof.
  destruct W as [|t|[|t ts]]; simpl; try reflexivity.
  - destruct (has_type t m); reflexivity.
  - rewrite existsb_forallb_negb. destruct (has_type t m); reflexivity.
Qed.

Lemma lookup_spawn_self w cs :
  PyDict.lookup entity_eqb (snd (spawn w cs)) (entities (fst (spawn w cs)))
  = Some (mkInternalEntity (snd (spawn w cs)) (add_components [] cs)).
Proof.
  simpl. dict_rw. rewrite PyDictFacts.eqb_refl_k by apply entity_eqb_spec. reflexivity.
Qed.

(** ** Claims *)

(** C5: [satisfies(e, has=H, without=W)] is true iff [e] is registered,
    every type of H (a single type or a sequence) is present in its
    component map and no type of W is.  In particular a freshly spawned
    entity without components satisfies the call with no filters and
    fails [has=T] for every type [T]. *)
Theorem satisfies_matching_rule (w : World) (e : Entity) (H W : Filter) :
  satisfies w e H W = spec_satisfies w e H W /\
  satisfies (fst (spawn w [])) (snd (spawn w [])) FNone FNone = true /\
  (forall T, satisfies (fst (spawn w [])) (snd (spawn w [])) (FOne T) FNone = false).
Proof.
  split; [|split].
  - unfold satisfies, spec_satisfies. rewrite contains_lookup_w.
    destruct (PyDict.lookup entity_eqb e (entities w)) as [ie|]; [|reflexivity].
    cbv zeta. simpl negb. rewrite has_check_spec, without_check_spec.
    destruct (forallb _ (spec_filter_types H)), (forallb _ (spec_filter_types W)); reflexivity.
  - unfold satisfies. rewrite contains_lookup_w, lookup_spawn_self. reflexivity.
  - intros T. unfold satisfies. rewrite contains_lookup_w, lookup_spawn_self. reflexivity.
Qed.

(** C4: on a registered entity, [insert(e, c1, ..., cn)] signals no
    error and afterwards [get(e, t)] is the last supplied component of
    type [t] (or what it was before, if none has type [t]); on an absent
    entity it signals [NoSuchEntity] and leaves the world unchanged. *)
Theorem insert_get_or_no_such_entity (w : World) (e : Entity) (cs : list Component) :
  if contains w e then
    snd (insert w e cs) = None /\
    (forall t, get (fst (insert w e cs)) e t
               = match last_of_type t cs with Some c => Some c | None => get w e t end)
  else insert w e cs = (w, Some NoSuchEntity).
Proof.
  unfold insert. destruct (contains w e) eqn:Hc; [|reflexivity].
  split; [reflexivity|]. intros t. simpl. rewrite !get_lookup. simpl. dict_rw.
  rewrite PyDictFacts.eqb_refl_k by apply entity_eqb_spec.
  rewrite contains_lookup_w in Hc.
  destruct (PyDict.lookup entity_eqb e (entities w)) as [ie|]; [|discriminate].
  simpl. apply lookup_add_components.
Qed.

(** C6: [take(e)] on a registered entity returns exactly the values of
    its component map and unregisters it; on an absent entity it returns
    the empty collection and leaves the world unchanged. *)
Theorem take_returns_components (w : World) (e : Entity) :
  match PyDict.lookup entity_eqb e (entities w) with
  | Some ie => snd (take w e) = PyDict.values (ie_components ie) /\
               contains (fst (take w e)) e = false
  | None => take w e = (w, [])
  end.
Proof.
  unfold take, getitem_entity, despawn. rewrite contains_lookup_w.
  destruct (PyDict.lookup entity_eqb e (entities w)) as [ie|] eqn:Hl; [|reflexivity].
  simpl. split; [reflexivity|].
  rewrite contains_lookup_w; simpl. dict_rw.
  rewrite PyDictFacts.eqb_refl_k by apply entity_eqb_spec. reflexivity.
Qed.

(** C8: [remove(e, T1, ..., Tn)] on a registered entity keeps exactly the
    entries whose type is not listed (listed types that are absent are
    ignored); on an unregistered entity the world is unchanged; and
    removing twice is the same as removing once. *)
Theorem remove_exact_and_idempotent (w : World) (e : Entity) (ts : list Ty) :
  match PyDict.lookup entity_eqb e (entities w) with
  | Some ie => PyDict.lookup entity_eqb e (entities (remove w e ts))
               = Some (mkInternalEntity (ie_entity ie) (filter (kept ts) (ie_components ie)))
  | None => remove w e ts = w
  end /\
  remove (remove w e ts) e ts = remove w e ts.
Proof.
  split.
  - unfold remove. rewrite contains_lookup_w.
    destruct (PyDict.lookup entity_eqb e (entities w)) as [ie|] eqn:Hl; [|reflexivity].
    simpl. dict_rw. rewrite PyDictFacts.eqb_refl_k by apply entity_eqb_spec.
    rewrite Hl. simpl. rewrite remove_types_filter. reflexivity.
  - destruct (contains w e) eqn:Hc.
    + unfold remove at 2 3. rewrite Hc. unfold remove. unfold contains at 1. simpl.
      rewrite (PyDictFacts.contains_modify _ entity_eqb_spec). fold (contains w e). rewrite Hc.
      rewrite PyDictFacts.modify_modify. f_equal.
      apply PyDictFacts.modify_ext. intros ie. simpl. rewrite remove_types_idem. reflexivity.
    + unfold remove. rewrite Hc. rewrite Hc. reflexivity.
Qed.

(** C10: [Entity.__eq__] accepts an int on the right: [Entity(m) == n]
    holds iff [m = n], as [Entity(m) == Entity(n)] does; so the entity
    returned by [spawn] equals the plain integer it wraps. *)
Theorem entity_eq_int_and_entity (m n : Z) (w : World) (cs : list Component) :
  Entity_eq (mkEntity n) (OInt n) = true /\
  Entity_eq (mkEntity m) (OInt n) = Z.eqb m n /\
  Entity_eq (mkEntity m) (OEntity (mkEntity n)) = Z.eqb m n /\
  Entity_eq (snd (spawn w cs)) (OInt (next_entity_id w)) = true.
Proof.
  simpl. rewrite !Z.eqb_refl. repeat split.
Qed.

(** ** The allocator *)

Lemma step_next w op :
  next_entity_id (fst (step w op))
  = (next_entity_id w + match snd (step w op) with Some _ => 1 | None => 0 end)%Z.
Proof.
  destruct op; simpl; try lia.
  - unfold despawn; destruct (contains w e); simpl; lia.
  - unfold insert; destruct (contains w e); simpl; lia.
  - unfold remove; destruct (contains w e); simpl; lia.
  - unfold take, despawn; destruct (contains w e); [destruct (getitem_entity w e)|]; simpl; lia.
Qed.

Lemma step_spawned w op e :
  snd (step w op) = Some e -> entity_id e = next_entity_id w.
Proof. destruct op; simpl; intros H; inversion H; reflexivity. Qed.

Lemma run_ids w ops :
  map entity_id (snd (run w ops))
  = map (fun i => (next_entity_id w + Z.of_nat i)%Z) (seq 0 (length (snd (run w ops)))) /\
  next_entity_id (fst (run w ops)) = (next_entity_id w + Z.of_nat (length (snd (run w ops))))%Z.
Proof.
  revert w. induction ops as [|op ops IH]; intros w; simpl; [split; [reflexivity|lia]|].
  pose proof (step_next w op) as Hn. pose proof (step_spawned w op) as Hs.
  destruct (step w op) as [w1 r]. simpl in Hn, Hs.
  destruct (IH w1) as [Hids Hnext].
  destruct (run w1 ops) as [w2 es]. simpl in *.
  destruct r as [e|].
  - simpl. rewrite Hids. rewrite <- seq_shift, map_map. split.
    + rewrite (Hs e eq_refl). f_equal; [lia|]. apply map_ext. intros i. lia.
    + lia.
  - split; [rewrite Hids; apply map_ext; intros i; lia|lia].
Qed.

Lemma NoDup_of_nat_seq a k : NoDup (map Z.of_nat (seq a k)).
Proof.
  revert a. induction k as [|k IH]; intros a; simpl; constructor; [|apply IH].
  intros Hin. apply in_map_iff in Hin. destruct Hin as [x [Hx Hin]].
  apply in_seq in Hin. lia.
Qed.

(** C3: from a fresh [World], the entities returned by [spawn] over any
    sequence of operations (in particular [spawn] interleaved with
    [despawn]) have ids [0, 1, 2, ...] in order, so no two are equal. *)
Theorem spawn_ids_fresh_and_increasing (ops : list Op) :
  map entity_id (snd (run new_world ops))
  = map Z.of_nat (seq 0 (length (snd (run new_world ops)))) /\
  NoDup (snd (run new_world ops)).
Proof.
  destruct (run_ids new_world ops) as [Hids _].
  assert (Hz : map entity_id (snd (run new_world ops))
               = map Z.of_nat (seq 0 (length (snd (run new_world ops))))).
  { rewrite Hids. apply map_ext. intros i. simpl. lia. }
  split; [exact Hz|].
  apply (NoDup_map_inv entity_id). rewrite Hz. apply NoDup_of_nat_seq.
Qed.

(** C7: [clear()] empties the entity mapping ([iter()] yields nothing,
    [contains] is false everywhere) and leaves the allocator unchanged,
    so the next [spawn()] returns an id greater than every id [spawn]
    returned before on that world. *)
Theorem clear_keeps_allocator (w : World) (ops : list Op) (cs : list Component) :
  entities (clear w) = [] /\
  next_entity_id (clear w) = next_entity_id w /\
  iter (clear w) = [] /\
  (forall e, contains (clear w) e = false) /\
  Forall (fun e => (entity_id e < entity_id (snd (spawn (clear (fst (run new_world ops))) cs)))%Z)
         (snd (run new_world ops)).
Proof.
  split; [reflexivity|]. split; [reflexivity|]. split; [reflexivity|].
  split; [intros e; reflexivity|].
  destruct (run_ids new_world ops) as [Hids Hnext].
  simpl. rewrite Hnext. simpl.
  apply (Forall_map entity_id (fun z => (z < Z.of_nat (length (snd (run new_world ops))))%Z)).
  rewrite Hids. apply Forall_map. apply Forall_forall.
  intros i Hi. apply in_seq in Hi. simpl. lia.
Qed.

(** ** [find] *)

Lemma find_has_guard (H : Filter) m :
  truthy (normalize H) && existsb (fun c => negb (has_type c m)) (filter_list (normalize H))
  = negb (forallb (fun t => has_type t m) (spec_filter_types H)).
Proof.
  destruct H as [|t|[|t ts]]; simpl; try reflexivity.
  - destruct (has_type t m); reflexivity.
  - rewrite existsb_negb_forallb. destruct (has_type t m); reflexivity.
Qed.

Lemma find_without_guard (W : Filter) m :
  truthy (normalize W) && existsb (fun c => has_type c m) (filter_list (normalize W))
  = negb (forallb (fun t => negb (has_type t m)) (spec_filter_types W)).
Proof.
  destruct W as [|t|[|t ts]]; simpl; try reflexivity.
  - destruct (has_type t m); reflexivity.
  - rewrite existsb_forallb_negb. destruct (has_type t m); reflexivity.
Qed.

Lemma getitems_present R m :
  forallb (fun t => has_type t m) R = true ->
  exists cs, getitems R m = Ok cs /\
             Forall2 (fun t c => PyDict.lookup Nat.eqb t m = Some c) R cs.
Proof.
  induction R as [|t R IH]; simpl; intros Hall.
  - exists []; split; constructor.
  - apply andb_true_iff in Hall. destruct Hall as [Ht HR].
    rewrite has_type_lookup in Ht.
    destruct (PyDict.lookup Nat.eqb t m) as [c|] eqn:Hl; [|discriminate].
    destruct (IH HR) as [cs [Hg Hf]]. rewrite Hg.
    exists (c :: cs); split; [reflexivity|constructor; assumption].
Qed.

Lemma find_loop_spec R H W ies :
  snd (find_loop R (normalize H) (normalize W) ies) = None /\
  Forall2 (row_of R)
    (filter (fun ie => spec_matches R H W (ie_components ie)) ies)
    (fst (find_loop R (normalize H) (normalize W) ies)).
Proof.
  induction ies as [|ie ies [IHs IHf]]; simpl; [split; constructor|].
  rewrite find_has_guard, find_without_guard. unfold spec_matches.
  destruct (forallb (fun t => has_type t (ie_components ie)) (spec_filter_types H)) eqn:Eh;
    destruct (forallb (fun t => negb (has_type t (ie_components ie))) (spec_filter_types W)) eqn:Ew;
    destruct (forallb (fun t => has_type t (ie_components ie)) R) eqn:Er;
    simpl; try (split; assumption).
  destruct (getitems_present R (ie_components ie) Er) as [cs [Hg Hf]].
  rewrite Hg. unfold gseq, gyield.
  destruct (find_loop R (normalize H) (normalize W) ies) as [zs r]. simpl in *.
  split; [assumption|]. constructor; [split; [reflexivity|assumption]|assumption].
Qed.

(** C1: [find] called with requested types R, [has=H] and [without=W]
    raises nothing and yields, in the order of the World's entity mapping (its registration order), one
    tuple per stored entity that passes the matching rule (every type of
    R and of H present, no type of W present, a single type for H or W
    standing for a one-element set): the entity followed by its
    components of the types of R, in the order of R.  Entities failing a
    check yield nothing. *)
Theorem find_matching_rule (w : World) (R : list Ty) (H W : Filter) :
  snd (find w R H W) = None /\
  Forall2 (fun ie y => fst y = ie_entity ie /\
             Forall2 (fun t c => PyDict.lookup Nat.eqb t (ie_components ie) = Some c) R (snd y))
    (filter (fun ie => spec_matches R H W (ie_components ie)) (PyDict.values (entities w)))
    (fst (find w R H W)).
Proof.
  unfold find. destruct (find_loop_spec R H W (PyDict.values (entities w))) as [Hs Hf].
  destruct (find_loop R (normalize H) (normalize W) (PyDict.values (entities w))) as [ys r].
  simpl in *. subst r. simpl. rewrite app_nil_r. split; [reflexivity|exact Hf].
Qed.

(** ** [find_on] *)

(** What [find_on] amounts to: the [has]/[without] branches only run
    [yield from []], so they change nothing, and a missing entity reaches
    [self.entities[entity]]. *)
Lemma find_on_unfold w e R H W :
  find_on w e R H W =
  match PyDict.lookup entity_eqb e (entities w) with
  | None => ([], Some KeyError)
  | Some ie =>
      if forallb (fun c => has_type c (ie_components ie)) R
      then match getitems R (ie_components ie) with
           | Ok cs => ([(ie_entity ie, cs)], None)
           | Raise ex => ([], Some ex)
           end
      else ([], None)
  end.
Proof.
  unfold find_on, getitem_entity.
  destruct (negb (contains w e)); simpl;
    (destruct (PyDict.lookup entity_eqb e (entities w)) as [ie|]; [|reflexivity]);
    destruct H as [|t|ts], W as [|u|us]; simpl;
    repeat match goal with
           | |- context [if ?b then _ else _] => destruct b
           end; simpl; try reflexivity;
    destruct (getitems R (ie_components ie)); reflexivity.
Qed.

(** C2 (the code differs from the claim): [find_on] yields the entity's
    tuple whenever the entity is registered and has the requested types,
    whatever [has] and [without] say, because each failed filter runs
    [yield from []] and falls through; on an unregistered entity the
    generator raises [KeyError] at [self.entities[entity]] instead of
    yielding nothing.  On the world [a={Position,Velocity}], [b={Position}],
    [c={Position,IsDead}]: [find_on(b, Position, has=Velocity)] and
    [find_on(b, Position, without=Position)] yield [b], and
    [find_on(Entity(7))] raises [KeyError]. *)
Theorem find_on_ignores_filters_and_raises :
  (forall w e R H W, find_on w e R H W = find_on w e R FNone FNone) /\
  find_on abc_world (mkEntity 1) [Position] (FOne Velocity) FNone
    = ([(mkEntity 1, [pos 2])], None) /\
  find_on abc_world (mkEntity 1) [Position] FNone (FOne Position)
    = ([(mkEntity 1, [pos 2])], None) /\
  find_on abc_world (mkEntity 7) [] FNone FNone = ([], Some KeyError).
Proof.
  split; [intros w e R H W; rewrite !find_on_unfold; reflexivity|].
  split; [reflexivity|]. split; reflexivity.
Qed.

(** ** Registered entities *)

Lemma step_keys_match w op : keys_match w -> keys_match (fst (step w op)).
Proof.
  unfold keys_match. intros Hw.
  assert (Hset : forall e ie, ie_entity ie = e ->
            Forall (fun kv => ie_entity (snd kv) = fst kv)
                   (PyDict.setitem entity_eqb e ie (entities w))).
  { intros e ie Hie. apply (PyDictFacts.Forall_setitem _ entity_eqb_spec); [|exact Hw].
    intros k' Hk. apply entity_eqb_spec in Hk. simpl. congruence. }
  assert (Hdel : forall w' e, Forall (fun kv => ie_entity (snd kv) = fst kv) (entities w') ->
            Forall (fun kv => ie_entity (snd kv) = fst kv) (entities (fst (despawn w' e)))).
  { intros w' e Hw'. unfold despawn. destruct (contains w' e); simpl; [|exact Hw'].
    apply PyDictFacts.Forall_delitem; exact Hw'. }
  destruct op; simpl.
  - apply Hset; reflexivity.
  - apply Hset; reflexivity.
  - apply Hdel, Hw.
  - constructor.
  - unfold insert. destruct (contains w e); simpl; [|exact Hw].
    apply PyDictFacts.Forall_modify; [|exact Hw]. intros k' v Hv; exact Hv.
  - unfold remove. destruct (contains w e); simpl; [|exact Hw].
    apply PyDictFacts.Forall_modify; [|exact Hw]. intros k' v Hv; exact Hv.
  - unfold take. destruct (contains w e); [destruct (getitem_entity w e)|]; simpl;
      [apply Hdel, Hw|exact Hw|exact Hw].
Qed.

Lemma run_keys_match w ops : keys_match w -> keys_match (fst (run w ops)).
Proof.
  revert w. induction ops as [|op ops IH]; intros w Hw; simpl; [exact Hw|].
  pose proof (step_keys_match w op Hw) as H1.
  destruct (step w op) as [w1 r]. simpl in H1.
  specialize (IH w1 H1). destruct (run w1 ops) as [w2 es]. exact IH.
Qed.

Lemma Forall2_In_r {A B} (P : A -> B -> Prop) l1 l2 y :
  Forall2 P l1 l2 -> In y l2 -> exists x, In x l1 /\ P x y.
Proof.
  induction 1 as [|x y' l1 l2 Hxy _ IH]; simpl; [contradiction|].
  intros [->|Hin]; [exists x; split; [left|]; auto|].
  destruct (IH Hin) as [x' [Hx' Hp]]. exists x'; split; [right|]; auto.
Qed.

Lemma stored_entity_registered w ie :
  keys_match w -> In ie (PyDict.values (entities w)) -> contains w (ie_entity ie) = true.
Proof.
  unfold keys_match, PyDict.values. intros Hk Hin.
  apply in_map_iff in Hin. destruct Hin as [[k ie'] [Heq Hin]]. simpl in Heq. subst ie'.
  pose proof (proj1 (Forall_forall _ _) Hk _ Hin) as Hkv. simpl in Hkv. rewrite Hkv.
  eapply PyDictFacts.In_contains; [apply entity_eqb_spec|exact Hin].
Qed.

(** C9: in every world reached from [World()] by the public operations,
    every stored [InternalEntity] carries the key it is registered under,
    and every entity yielded by [find], [find_on], [iter] and
    [iter_every] is registered ([contains] is true for it). *)
Theorem query_results_registered (ops : list Op) (R : list Ty) (H W : Filter) (e : Entity) :
  keys_match (fst (run new_world ops)) /\
  Forall (fun y => contains (fst (run new_world ops)) (fst y) = true)
         (fst (find (fst (run new_world ops)) R H W)) /\
  Forall (fun y => contains (fst (run new_world ops)) (fst y) = true)
         (fst (find_on (fst (run new_world ops)) e R H W)) /\
  Forall (fun x => contains (fst (run new_world ops)) x = true)
         (iter (fst (run new_world ops))) /\
  Forall (fun y => contains (fst (run new_world ops)) (fst y) = true)
         (iter_every (fst (run new_world ops))).
Proof.
  pose proof (run_keys_match new_world ops (Forall_nil _)) as Hk.
  set (w := fst (run new_world ops)) in *.
  split; [exact Hk|]. split; [|split; [|split]].
  - apply Forall_forall. intros y Hy.
    unfold find in Hy. destruct (find_loop_spec R H W (PyDict.values (entities w))) as [Hs Hf].
    destruct (find_loop R (normalize H) (normalize W) (PyDict.values (entities w))) as [ys r].
    simpl in Hs, Hf, Hy. subst r. simpl in Hy. rewrite app_nil_r in Hy.
    destruct (Forall2_In_r _ _ _ _ Hf Hy) as [ie [Hie [Hfst _]]].
    apply filter_In in Hie. rewrite Hfst. apply stored_entity_registered; [exact Hk|apply Hie].
  - rewrite find_on_unfold.
    destruct (PyDict.lookup entity_eqb e (entities w)) as [ie|] eqn:Hl; [|constructor].
    destruct (forallb _ R); [|constructor].
    destruct (getitems R (ie_components ie)); [|constructor].
    constructor; [|constructor]. simpl. apply stored_entity_registered; [exact Hk|].
    apply PyDictFacts.lookup_In in Hl; [|apply entity_eqb_spec].
    apply in_map_iff. exists (e, ie); split; [reflexivity|exact Hl].
  - unfold iter. apply Forall_map, Forall_forall. intros [k ie] Hin. simpl.
    apply stored_entity_registered; [exact Hk|].
    apply in_map_iff. exists (k, ie); split; [reflexivity|exact Hin].
  - unfold iter_every. apply Forall_map, Forall_forall. intros [k ie] Hin. simpl.
    eapply PyDictFacts.In_contains; [apply entity_eqb_spec|exact Hin].
Qed.

(** ** Further properties of the World operations *)

Lemma entity_eqb_refl e : entity_eqb e e = true.
Proof. apply entity_eqb_spec; reflexivity. Qed.

Lemma keys_setitem k v (d : PyDict.dict Entity InternalEntity) :
  map fst (PyDict.setitem entity_eqb k v d)
  = if PyDict.contains entity_eqb k d then map fst d else map fst d ++ [k].
Proof.
  unfold PyDict.contains.
  induction d as [|[k0 v0] d IH]; simpl; [reflexivity|].
  destruct (entity_eqb k k0) eqn:E; simpl; [reflexivity|].
  rewrite IH. destruct (existsb _ d); reflexivity.
Qed.

Lemma setitem_fresh k v (d : PyDict.dict Entity InternalEntity) :
  PyDict.contains entity_eqb k d = false ->
  PyDict.setitem entity_eqb k v d = d ++ [(k, v)].
Proof.
  unfold PyDict.contains.
  induction d as [|[k0 v0] d IH]; simpl; [reflexivity|].
  destruct (entity_eqb k k0); simpl; [discriminate|]. intros H; rewrite IH; auto.
Qed.

Lemma keys_modify {V} k f (d : PyDict.dict Entity V) :
  map fst (PyDict.modify entity_eqb k f d) = map fst d.
Proof.
  induction d as [|[k0 v0] d IH]; simpl; [reflexivity|].
  destruct (entity_eqb k k0); simpl; [|rewrite IH]; reflexivity.
Qed.

Lemma stored_modify k f (d : PyDict.dict Entity InternalEntity) :
  (forall ie, ie_entity (f ie) = ie_entity ie) ->
  map (fun kv => ie_entity (snd kv)) (PyDict.modify entity_eqb k f d)
  = map (fun kv => ie_entity (snd kv)) d.
Proof.
  intros Hf. induction d as [|[k0 v0] d IH]; simpl; [reflexivity|].
  destruct (entity_eqb k k0); simpl; [rewrite Hf|rewrite IH]; reflexivity.
Qed.

Lemma delitem_not_contained k (d : PyDict.dict Entity InternalEntity) :
  PyDict.contains entity_eqb k d = false -> PyDict.delitem entity_eqb k d = d.
Proof.
  unfold PyDict.contains, PyDict.delitem.
  induction d as [|[k0 v0] d IH]; simpl; [reflexivity|].
  destruct (entity_eqb k k0); simpl; [discriminate|]. intros H; rewrite IH; auto.
Qed.

Lemma get_unregistered w e t : contains w e = false -> get w e t = None.
Proof. unfold get. intros H; rewrite H; reflexivity. Qed.

Lemma get_spawned_world w cs t :
  get (fst (spawn w cs)) (snd (spawn w cs)) t = last_of_type t cs.
Proof.
  rewrite get_lookup, lookup_spawn_self. simpl. rewrite lookup_add_components.
  destruct (last_of_type t cs); reflexivity.
Qed.

(** X1: [spawn] with components [cs] returns [Entity(next_entity_id)], advances the
    counter by one, registers the entity, and [get] on it returns the
    last supplied component of each type (nothing for other types). *)
Theorem spawn_get_roundtrip (w : World) (cs : list Component) :
  snd (spawn w cs) = mkEntity (next_entity_id w) /\
  next_entity_id (fst (spawn w cs)) = (next_entity_id w + 1)%Z /\
  contains (fst (spawn w cs)) (snd (spawn w cs)) = true /\
  (forall t, get (fst (spawn w cs)) (snd (spawn w cs)) t = last_of_type t cs).
Proof.
  split; [reflexivity|]. split; [reflexivity|]. split.
  - rewrite contains_lookup_w, lookup_spawn_self. reflexivity.
  - intros t. apply get_spawned_world.
Qed.

(** X2: [spawn] does not check the allocator's id against the mapping:
    when [spawn_at] already registered [Entity(next_entity_id)], [spawn]
    returns that same entity, replaces its components with the new ones
    (nothing of the old map survives), and the set and order of the
    registered keys is unchanged. *)
Theorem spawn_overwrites_colliding_entity (w : World) (cs : list Component)
    (Hcol : contains w (mkEntity (next_entity_id w)) = true) :
  map fst (entities (fst (spawn w cs))) = map fst (entities w) /\
  (forall t, get (fst (spawn w cs)) (mkEntity (next_entity_id w)) t = last_of_type t cs).
Proof.
  split.
  - simpl. rewrite keys_setitem. unfold contains in Hcol. rewrite Hcol. reflexivity.
  - intros t. apply get_spawned_world.
Qed.

(** X3: when [Entity(next_entity_id)] is not registered, [spawn] appends
    the new entity at the end of the mapping, so [iter()] yields it last,
    after the entities it yielded before. *)
Theorem spawn_fresh_appends (w : World) (cs : list Component)
    (Hfresh : contains w (mkEntity (next_entity_id w)) = false) :
  entities (fst (spawn w cs))
  = entities w ++ [(snd (spawn w cs),
                    mkInternalEntity (snd (spawn w cs)) (add_components [] cs))] /\
  iter (fst (spawn w cs)) = iter w ++ [snd (spawn w cs)].
Proof.
  assert (He : entities (fst (spawn w cs))
               = entities w ++ [(snd (spawn w cs),
                                 mkInternalEntity (snd (spawn w cs)) (add_components [] cs))]).
  { simpl. apply setitem_fresh. exact Hfresh. }
  split; [exact He|]. unfold iter. rewrite He, map_app. reflexivity.
Qed.

(** X4: [spawn_at] of [e] with components [cs] replaces [e]'s component map by one built from
    [cs] alone (no merge with what [e] held), registers [e], touches no
    other entity and leaves the allocator unchanged. *)
Theorem spawn_at_replaces (w : World) (e : Entity) (cs : list Component) :
  next_entity_id (spawn_at w e cs) = next_entity_id w /\
  contains (spawn_at w e cs) e = true /\
  (forall e' t, get (spawn_at w e cs) e' t
                = if entity_eqb e' e then last_of_type t cs else get w e' t).
Proof.
  split; [reflexivity|]. split.
  - rewrite contains_lookup_w. simpl. dict_rw. rewrite entity_eqb_refl. reflexivity.
  - intros e' t. rewrite !get_lookup. simpl. dict_rw.
    destruct (entity_eqb e' e); [|reflexivity]. simpl.
    rewrite lookup_add_components. destruct (last_of_type t cs); reflexivity.
Qed.

(** X5: [despawn(e)] on a registered entity returns [None], unregisters
    exactly [e] (every other entity keeps its components) and keeps the
    allocator; on an absent entity it returns [NoSuchEntity] and changes
    nothing.  A second [despawn(e)] in a row always returns
    [NoSuchEntity]. *)
Theorem despawn_frame (w : World) (e : Entity) :
  (if contains w e then
     snd (despawn w e) = None /\
     next_entity_id (fst (despawn w e)) = next_entity_id w /\
     (forall e' t, get (fst (despawn w e)) e' t
                   = if entity_eqb e' e then None else get w e' t)
   else despawn w e = (w, Some NoSuchEntity)) /\
  snd (despawn (fst (despawn w e)) e) = Some NoSuchEntity.
Proof.
  assert (Hgone : contains (mkWorld (next_entity_id w)
                              (PyDict.delitem entity_eqb e (entities w))) e = false).
  { rewrite contains_lookup_w. simpl. dict_rw. rewrite entity_eqb_refl. reflexivity. }
  destruct (contains w e) eqn:Hc.
  - assert (Hd : despawn w e = (mkWorld (next_entity_id w)
                                 (PyDict.delitem entity_eqb e (entities w)), None))
      by (unfold despawn; rewrite Hc; reflexivity).
    rewrite Hd. split; [split; [reflexivity|split; [reflexivity|]]|].
    + intros e' t. rewrite !get_lookup. simpl. dict_rw.
      destruct (entity_eqb e' e); reflexivity.
    + simpl. unfold despawn. rewrite Hgone. reflexivity.
  - assert (Hd : despawn w e = (w, Some NoSuchEntity))
      by (unfold despawn; rewrite Hc; reflexivity).
    rewrite Hd. split; [reflexivity|]. simpl. rewrite Hd. reflexivity.
Qed.

(** X6: [take(e)] leaves the world exactly as [despawn(e)] does (it only
    differs in what it returns). *)
Theorem take_state_is_despawn (w : World) (e : Entity) :
  fst (take w e) = fst (despawn w e).
Proof.
  unfold take, getitem_entity. destruct (contains w e) eqn:Hc.
  - rewrite contains_lookup_w in Hc.
    destruct (PyDict.lookup entity_eqb e (entities w)); [reflexivity|discriminate].
  - unfold despawn. rewrite Hc. reflexivity.
Qed.

Lemma spawn_overwrites_colliding_entity_witness :
  contains (spawn_at new_world (mkEntity 0) [pos 5])
           (mkEntity (next_entity_id (spawn_at new_world (mkEntity 0) [pos 5]))) = true /\
  (map fst (entities (fst (spawn (spawn_at new_world (mkEntity 0) [pos 5]) [vel 1])))
   = map fst (entities (spawn_at new_world (mkEntity 0) [pos 5])) /\
   (forall t, get (fst (spawn (spawn_at new_world (mkEntity 0) [pos 5]) [vel 1]))
                  (mkEntity (next_entity_id (spawn_at new_world (mkEntity 0) [pos 5]))) t
              = last_of_type t [vel 1])).
Proof.
  split; [reflexivity|]. apply spawn_overwrites_colliding_entity. reflexivity.
Defined.

Lemma spawn_fresh_appends_witness :
  contains abc_world (mkEntity (next_entity_id abc_world)) = false /\
  (entities (fst (spawn abc_world [pos 4]))
   = entities abc_world ++ [(snd (spawn abc_world [pos 4]),
                             mkInternalEntity (snd (spawn abc_world [pos 4]))
                                              (add_components [] [pos 4]))] /\
   iter (fst (spawn abc_world [pos 4])) = iter abc_world ++ [snd (spawn abc_world [pos 4])]).
Proof.
  split; [reflexivity|]. apply spawn_fresh_appends. reflexivity.
Defined.

Lemma lookup_filter_kept t ts (m : CompMap) :
  PyDict.lookup Nat.eqb t (filter (kept ts) m)
  = if existsb (Nat.eqb t) ts then None else PyDict.lookup Nat.eqb t m.
Proof.
  induction m as [|[k v] m IH]; simpl.
  - destruct (existsb (Nat.eqb t) ts); reflexivity.
  - unfold kept at 1. simpl.
    destruct (Nat.eqb t k) eqn:E.
    + apply Nat.eqb_eq in E. subst k.
      destruct (existsb (Nat.eqb t) ts); simpl; [exact IH|rewrite Nat.eqb_refl; reflexivity].
    + destruct (existsb (Nat.eqb k) ts); simpl; [exact IH|rewrite E; exact IH].
Qed.

(** X7: [insert] and [remove] never change which entities are registered,
    their order in the mapping, what [iter()] yields, or the allocator. *)
Theorem insert_remove_keep_registration (w : World) (e : Entity)
    (cs : list Component) (ts : list Ty) :
  map fst (entities (fst (insert w e cs))) = map fst (entities w) /\
  iter (fst (insert w e cs)) = iter w /\
  next_entity_id (fst (insert w e cs)) = next_entity_id w /\
  map fst (entities (remove w e ts)) = map fst (entities w) /\
  iter (remove w e ts) = iter w /\
  next_entity_id (remove w e ts) = next_entity_id w.
Proof.
  unfold insert, remove, iter. destruct (contains w e); simpl;
    [|repeat split; reflexivity].
  rewrite !keys_modify, !stored_modify by reflexivity. repeat split.
Qed.

(** X8: [insert] and [remove] on [e] leave every other entity's
    components as they were. *)
Theorem insert_remove_frame (w : World) (e e' : Entity) (cs : list Component)
    (ts : list Ty) (t : Ty) (Hne : entity_eqb e' e = false) :
  get (fst (insert w e cs)) e' t = get w e' t /\
  get (remove w e ts) e' t = get w e' t.
Proof.
  unfold insert, remove. destruct (contains w e); simpl; [|split; reflexivity].
  rewrite !get_lookup. simpl. dict_rw. rewrite Hne. split; reflexivity.
Qed.

Lemma insert_remove_frame_witness :
  entity_eqb (mkEntity 1) (mkEntity 0) = false /\
  (get (fst (insert abc_world (mkEntity 0) [dead])) (mkEntity 1) Position
   = get abc_world (mkEntity 1) Position /\
   get (remove abc_world (mkEntity 0) [Position]) (mkEntity 1) Position
   = get abc_world (mkEntity 1) Position).
Proof.
  split; [reflexivity|]. apply insert_remove_frame. reflexivity.
Defined.

(** X9: after [remove(e, *ts)], [get(e, t)] is [None] for every listed
    type and unchanged for every other type. *)
Theorem remove_then_get (w : World) (e : Entity) (ts : list Ty) (t : Ty) :
  get (remove w e ts) e t = if existsb (Nat.eqb t) ts then None else get w e t.
Proof.
  unfold remove. destruct (contains w e) eqn:Hc.
  - rewrite !get_lookup. simpl. dict_rw. rewrite entity_eqb_refl.
    destruct (PyDict.lookup entity_eqb e (entities w)) as [ie|];
      [|destruct (existsb (Nat.eqb t) ts); reflexivity].
    simpl. rewrite remove_types_filter. apply lookup_filter_kept.
  - rewrite (get_unregistered w e t Hc). destruct (existsb (Nat.eqb t) ts); reflexivity.
Qed.

(** X10: [is_empty(e)] is true exactly when [e] is registered and [get]
    finds no component of any type on it. *)
Theorem is_empty_iff_no_component (w : World) (e : Entity) :
  is_empty w e = true <-> contains w e = true /\ (forall t, get w e t = None).
Proof.
  unfold is_empty. rewrite contains_lookup_w.
  setoid_rewrite get_lookup.
  destruct (PyDict.lookup entity_eqb e (entities w)) as [ie|]; simpl.
  - destruct (ie_components ie) as [|[k c] m] eqn:Hm; simpl.
    + split; [intros _; split; [reflexivity|intros t; reflexivity]|reflexivity].
    + split; [discriminate|]. intros [_ Hall]. specialize (Hall k). simpl in Hall.
      rewrite Nat.eqb_refl in Hall. discriminate.
  - split; [discriminate|intros [H _]; discriminate].
Qed.

(** ** Worlds reached by the public operations *)

Lemma NoDup_snoc {A} (l : list A) x : NoDup l -> ~ In x l -> NoDup (l ++ [x]).
Proof.
  induction 1 as [|y l Hy Hl IH]; simpl; intros Hx.
  - constructor; [intros []|constructor].
  - constructor.
    + rewrite in_app_iff. simpl. intros [Hin|[Heq|[]]]; [contradiction|].
      apply Hx; left; symmetry; exact Heq.
    + apply IH. intros Hin; apply Hx; right; exact Hin.
Qed.

Lemma keys_filter {V} (p : Entity -> bool) (d : PyDict.dict Entity V) :
  map fst (filter (fun kv => p (fst kv)) d) = filter p (map fst d).
Proof.
  induction d as [|[k v] d IH]; simpl; [reflexivity|].
  destruct (p k); simpl; rewrite IH; reflexivity.
Qed.

Lemma NoDup_filter_keys {V} (p : Entity * V -> bool) (d : PyDict.dict Entity V) :
  NoDup (map fst d) -> NoDup (map fst (filter p d)).
Proof.
  induction d as [|[k v] d IH]; simpl; [intros; constructor|].
  intros Hnd. inversion Hnd as [|? ? Hk Hd]; subst.
  destruct (p (k, v)); simpl; [constructor|]; auto.
  intros Hin; apply Hk. apply in_map_iff in Hin. destruct Hin as [[k' v'] [Hk' Hin]].
  simpl in Hk'; subst k'. apply filter_In in Hin.
  apply in_map_iff. exists (k, v'); split; [reflexivity|apply Hin].
Qed.

Lemma not_contains_not_in {V} k (d : PyDict.dict Entity V) :
  PyDict.contains entity_eqb k d = false -> ~ In k (map fst d).
Proof.
  unfold PyDict.contains. intros Hc Hin.
  apply in_map_iff in Hin. destruct Hin as [[k' v] [Hk Hin]]. simpl in Hk; subst k'.
  assert (existsb (fun kv => entity_eqb k (fst kv)) d = true) as Hy.
  { apply existsb_exists. exists (k, v); split; [exact Hin|apply entity_eqb_refl]. }
  congruence.
Qed.

Lemma step_keys_unique w op : keys_unique w -> keys_unique (fst (step w op)).
Proof.
  unfold keys_unique. intros Hw.
  assert (Hset : forall e ie, NoDup (map fst (PyDict.setitem entity_eqb e ie (entities w)))).
  { intros e ie. rewrite keys_setitem.
    destruct (PyDict.contains entity_eqb e (entities w)) eqn:Hc; [exact Hw|].
    apply NoDup_snoc; [exact Hw|apply not_contains_not_in; exact Hc]. }
  assert (Hdel : forall w' e, NoDup (map fst (entities w')) ->
            NoDup (map fst (entities (fst (despawn w' e))))).
  { intros w' e Hw'. unfold despawn. destruct (contains w' e); simpl; [|exact Hw'].
    apply NoDup_filter_keys; exact Hw'. }
  destruct op; simpl.
  - apply Hset.
  - apply Hset.
  - apply Hdel, Hw.
  - constructor.
  - unfold insert. destruct (contains w e); simpl; [rewrite keys_modify|]; exact Hw.
  - unfold remove. destruct (contains w e); simpl; [rewrite keys_modify|]; exact Hw.
  - unfold take. destruct (contains w e); [destruct (getitem_entity w e)|]; simpl;
      [apply Hdel, Hw|exact Hw|exact Hw].
Qed.

Lemma run_keys_unique w ops : keys_unique w -> keys_unique (fst (run w ops)).
Proof.
  revert w. induction ops as [|op ops IH]; intros w Hw; simpl; [exact Hw|].
  pose proof (step_keys_unique w op Hw) as H1.
  destruct (step w op) as [w1 r]. simpl in H1.
  specialize (IH w1 H1). destruct (run w1 ops) as [w2 es]. exact IH.
Qed.

Lemma reachable_wf ops :
  keys_match (fst (run new_world ops)) /\ keys_unique (fst (run new_world ops)).
Proof.
  split; [apply run_keys_match; constructor|apply run_keys_unique; constructor].
Qed.

Lemma lookup_unique k v (d : PyDict.dict Entity InternalEntity) :
  NoDup (map fst d) -> In (k, v) d -> PyDict.lookup entity_eqb k d = Some v.
Proof.
  induction d as [|[k0 v0] d IH]; simpl; [intros _ []|].
  intros Hnd Hin. inversion Hnd as [|? ? Hk Hd]; subst.
  destruct Hin as [Heq|Hin].
  - inversion Heq; subst. rewrite entity_eqb_refl. reflexivity.
  - destruct (entity_eqb k k0) eqn:E.
    + apply entity_eqb_spec in E; subst k0. exfalso; apply Hk.
      apply in_map_iff. exists (k, v); split; [reflexivity|exact Hin].
    + apply IH; assumption.
Qed.

Lemma iter_keys w : keys_match w -> iter w = map fst (entities w).
Proof.
  unfold keys_match, iter. intros Hk. apply map_ext_in. intros kv Hin.
  exact (proj1 (Forall_forall _ _) Hk kv Hin).
Qed.

(** X11: in every world reached from [World()] by the public operations,
    [iter()] never yields the same entity twice. *)
Theorem iter_no_duplicates (ops : list Op) :
  NoDup (iter (fst (run new_world ops))).
Proof.
  destruct (reachable_wf ops) as [Hk Hu]. rewrite (iter_keys _ Hk). exact Hu.
Qed.

(** X12: in every reachable world, [despawn(e)] keeps the iteration order
    of the remaining entities: [iter()] afterwards is [iter()] before
    with the entities equal to [e] left out. *)
Theorem despawn_keeps_order (ops : list Op) (e : Entity) :
  iter (fst (despawn (fst (run new_world ops)) e))
  = filter (fun x => negb (entity_eqb e x)) (iter (fst (run new_world ops))).
Proof.
  destruct (reachable_wf ops) as [Hk _].
  set (w := fst (run new_world ops)) in *.
  rewrite (iter_keys _ Hk).
  rewrite <- (keys_filter (fun x => negb (entity_eqb e x))).
  fold (PyDict.delitem entity_eqb e (entities w)).
  unfold despawn. destruct (contains w e) eqn:Hc; simpl.
  - apply iter_keys. apply PyDictFacts.Forall_delitem. exact Hk.
  - rewrite delitem_not_contained by exact Hc. apply iter_keys; exact Hk.
Qed.

Lemma satisfies_spec_eq w e H W : satisfies w e H W = spec_satisfies w e H W.
Proof.
  unfold satisfies, spec_satisfies. rewrite contains_lookup_w.
  destruct (PyDict.lookup entity_eqb e (entities w)) as [ie|]; [|reflexivity].
  cbv zeta. simpl negb. rewrite has_check_spec, without_check_spec.
  destruct (forallb _ (spec_filter_types H)), (forallb _ (spec_filter_types W)); reflexivity.
Qed.

Lemma find_rows w R H W :
  snd (find w R H W) = None /\
  Forall2 (row_of R)
    (filter (fun ie => spec_matches R H W (ie_components ie)) (PyDict.values (entities w)))
    (fst (find w R H W)).
Proof.
  unfold find. destruct (find_loop_spec R H W (PyDict.values (entities w))) as [Hs Hf].
  destruct (find_loop R (normalize H) (normalize W) (PyDict.values (entities w))) as [ys r].
  simpl in *. subst r. simpl. rewrite app_nil_r. split; [reflexivity|exact Hf].
Qed.

Lemma Forall2_row_fst R l ys : Forall2 (row_of R) l ys -> map fst ys = map ie_entity l.
Proof. induction 1 as [|ie y l ys [Hy _] _ IH]; simpl; [reflexivity|]. rewrite Hy, IH; reflexivity. Qed.

Lemma filter_map_swap {A B} (f : B -> bool) (g : A -> B) l :
  filter f (map g l) = map g (filter (fun x => f (g x)) l).
Proof. induction l as [|x l IH]; simpl; [reflexivity|]. destruct (f (g x)); simpl; rewrite IH; reflexivity. Qed.

Lemma stored_lookup w ie :
  keys_match w -> keys_unique w -> In ie (PyDict.values (entities w)) ->
  PyDict.lookup entity_eqb (ie_entity ie) (entities w) = Some ie.
Proof.
  unfold keys_match, keys_unique, PyDict.values. intros Hk Hu Hin.
  apply in_map_iff in Hin. destruct Hin as [[k ie'] [Heq Hin]]. simpl in Heq. subst ie'.
  pose proof (proj1 (Forall_forall _ _) Hk _ Hin) as Hkv. simpl in Hkv. rewrite Hkv.
  apply lookup_unique; assumption.
Qed.

(** X13: in every reachable world, the entities yielded by [find()] with
    no requested types are exactly those of [iter()] for which
    [satisfies] holds with the same [has] and [without], in the same
    order. *)
Theorem find_without_types_is_satisfies (ops : list Op) (H W : Filter) :
  map fst (fst (find (fst (run new_world ops)) [] H W))
  = filter (fun e => satisfies (fst (run new_world ops)) e H W) (iter (fst (run new_world ops))).
Proof.
  destruct (reachable_wf ops) as [Hk Hu].
  set (w := fst (run new_world ops)) in *.
  destruct (find_rows w [] H W) as [_ Hf]. rewrite (Forall2_row_fst _ _ _ Hf).
  unfold iter. rewrite <- (map_map snd ie_entity). fold (PyDict.values (entities w)).
  rewrite filter_map_swap. f_equal. apply filter_ext_in. intros ie Hin.
  rewrite satisfies_spec_eq. unfold spec_satisfies.
  rewrite (stored_lookup w ie Hk Hu Hin). reflexivity.
Qed.

(** X14: in every reachable world, each tuple [(e, c1, ..., cn)] yielded
    by [find(T1, ..., Tn, ...)] agrees with [get]: [get(e, Ti)] is
    [ci] for every i. *)
Theorem find_components_agree_with_get (ops : list Op) (R : list Ty) (H W : Filter) :
  Forall (fun y => Forall2 (fun t c => get (fst (run new_world ops)) (fst y) t = Some c) R (snd y))
         (fst (find (fst (run new_world ops)) R H W)).
Proof.
  destruct (reachable_wf ops) as [Hk Hu].
  set (w := fst (run new_world ops)) in *.
  destruct (find_rows w R H W) as [_ Hf].
  apply Forall_forall. intros y Hy.
  destruct (Forall2_In_r _ _ _ _ Hf Hy) as [ie [Hin [Hfst Hcs]]].
  apply filter_In in Hin. destruct Hin as [Hin _].
  rewrite Hfst. eapply Forall2_impl; [|exact Hcs]. intros t c Hl.
  rewrite get_lookup, (stored_lookup w ie Hk Hu Hin). exact Hl.
Qed.

(** X15: in every reachable world, [iter_every()] yields, in [iter()]
    order, each entity paired with the values of its component map as
    looked up under that entity. *)
Theorem iter_every_follows_iter (ops : list Op) :
  iter_every (fst (run new_world ops))
  = map (fun e => (e, match PyDict.lookup entity_eqb e (entities (fst (run new_world ops))) with
                      | Some ie => PyDict.values (ie_components ie)
                      | None => []
                      end))
        (iter (fst (run new_world ops))).
Proof.
  destruct (reachable_wf ops) as [Hk Hu].
  set (w := fst (run new_world ops)) in *.
  rewrite (iter_keys _ Hk). unfold iter_every. rewrite map_map.
  apply map_ext_in. intros [k ie] Hin. simpl.
  rewrite (lookup_unique k ie (entities w) Hu Hin). reflexivity.
Qed.
